(** * Smithery registry gateway (src/main.py): a shallow embedding

    The gateway has three handlers ([list_servers], [get_server],
    [create_websocket_url]) and one dependency ([verify_token]).  Python
    strings are sequences of code points, Python integers are unbounded, the
    two forwarding handlers talk to the registry through one [client.get]
    each.  The handlers are embedded as functions in a small monad that
    threads the registry (a function from outbound requests to responses) and
    records every outbound request. *)

From Stdlib Require Import List NArith ZArith String Ascii Bool Lia.
From Stdlib Require Import Decimal DecimalFacts DecimalPos DecimalN DecimalZ.
Import ListNotations.

Set Implicit Arguments.
Set Warnings "-register-all".
Set Warnings "-automation".
Set Warnings "-deprecated".

(* ================================================================== *)
(** * Part I: definitions *)
(* ================================================================== *)

(** ** Python strings *)

(** A code point ([ord c]). *)
Definition char := N.

(** A Python [str]: a sequence of code points. *)
Definition str := list char.

(** A string literal of the source. *)
Definition lit (s : string) : str := map N_of_ascii (list_ascii_of_string s).

Fixpoint str_eqb (a b : str) : bool :=
  match a, b with
  | [], [] => true
  | x :: a', y :: b' => (x =? y)%N && str_eqb a' b'
  | _, _ => false
  end.

(** [s.startswith(prefix)] *)
Fixpoint startswith (s prefix : str) {struct prefix} : bool :=
  match prefix, s with
  | [], _ => true
  | _ :: _, [] => false
  | p :: prefix', c :: s' => (c =? p)%N && startswith s' prefix'
  end.

(** [old in s] *)
Fixpoint occurs (old s : str) : bool :=
  match s with
  | [] => startswith [] old
  | _ :: s' => startswith s old || occurs old s'
  end.

(** The scan of [s.replace(old, new)] for a non-empty [old]: left to right,
    an occurrence of [old] at the current position is replaced by [new] and
    the scan resumes after it ([skip] counts the characters of the occurrence
    still to be passed over); any other character is copied. *)
Fixpoint replace_scan (old new : str) (skip : nat) (s : str) : str :=
  match s with
  | [] => []
  | c :: s' =>
      match skip with
      | S k => replace_scan old new k s'
      | O =>
          if startswith s old
          then new ++ replace_scan old new (pred (List.length old)) s'
          else c :: replace_scan old new 0 s'
      end
  end.

(** [s.replace(old, new)].  An empty [old] matches before every character and
    at the end. *)
Definition replace (s old new : str) : str :=
  match old with
  | [] => new ++ flat_map (fun c => c :: new) s
  | _ :: _ => replace_scan old new 0 s
  end.


(** ** Python values *)

(** The values a [Dict[str, Any]] can hold, as far as [json] tells them
    apart: [None], [bool], [int], [str], [list], [dict] with string keys, and
    [PyOther cls] for an object of any class [cls] the encoder has no case
    for (a [set], [bytes], a user class).  A dict keeps its items in
    insertion order. *)
Inductive pyval : Type :=
| PyNone
| PyBool (b : bool)
| PyInt (z : Z)
| PyStr (s : str)
| PyList (l : list pyval)
| PyDict (d : list (str * pyval))
| PyOther (cls : str).

(** A Python dict with string keys, items in insertion order. *)
Definition dict (V : Type) := list (str * V).

Fixpoint dict_get {V} (d : dict V) (k : str) : option V :=
  match d with
  | [] => None
  | (k', v) :: d' => if str_eqb k' k then Some v else dict_get d' k
  end.

(** [d[k] = v]: an existing key keeps its position, a new key goes last. *)
Fixpoint dict_set {V} (d : dict V) (k : str) (v : V) : dict V :=
  match d with
  | [] => [(k, v)]
  | (k', v') :: d' =>
      if str_eqb k' k then (k', v) :: d' else (k', v') :: dict_set d' k v
  end.

Definition dict_keys {V} (d : dict V) : list str := map fst d.

(** ** Exceptions, outcomes and the outbound client *)

Inductive exn : Type :=
| TypeError (msg : str)
| UnicodeEncodeError
| UnicodeDecodeError.

(** What running a handler gives: a value, a raised [HTTPException], a
    request the framework refused because a required parameter ([Header(...)])
    is missing, or an exception nothing catches. *)
Inductive outcome (A : Type) : Type :=
| Return (a : A)
| HTTPException (status_code : Z) (detail : str)
| RequestValidationError (missing : str)
| Uncaught (e : exn).

Arguments Return {A} a.
Arguments HTTPException {A} status_code detail.
Arguments RequestValidationError {A} missing.
Arguments Uncaught {A} e.

(** The status line the framework answers with: 200 for a value, the
    exception's own code for an [HTTPException], 422 for a request it
    refused, 500 (the server-error middleware) for anything else. *)
Definition http_status {A} (o : outcome A) : Z :=
  match o with
  | Return _ => 200
  | HTTPException c _ => c
  | RequestValidationError _ => 422
  | Uncaught _ => 500
  end.

(** Sequencing: the first outcome that is not a value ends the run. *)
Definition obind {A B} (o : outcome A) (k : A -> outcome B) : outcome B :=
  match o with
  | Return a => k a
  | HTTPException c d => HTTPException c d
  | RequestValidationError m => RequestValidationError m
  | Uncaught e => Uncaught e
  end.

Notation "x <~ o ; k" := (obind o (fun x => k))
  (at level 61, o at next level, right associativity).

(** A value of a query parameter. *)
Inductive qval : Type :=
| QStr (s : str)
| QInt (z : Z).

(** An outbound [client.get(url, params=..., headers=...)]. *)
Record http_request : Type := mk_request {
  req_url : str;
  req_params : dict qval;
  req_headers : dict str
}.

(** What comes back: the status, the body text, and what [response.json()]
    makes of the body. *)
Record http_response : Type := mk_response {
  status_code : Z;
  text : str;
  json : pyval
}.

(** The registry, seen from the gateway. *)
Definition registry := http_request -> http_response.

(** A handler: given the registry, an outcome and the outbound requests it
    issued, oldest first. *)
Definition net (A : Type) : Type := registry -> outcome A * list http_request.

Definition ret {A} (a : A) : net A := fun _ => (Return a, []).

Definition raise {A} (status : Z) (detail : str) : net A :=
  fun _ => (HTTPException status detail, []).

Definition throw {A} (e : exn) : net A := fun _ => (Uncaught e, []).

Definition bind {A B} (m : net A) (k : A -> net B) : net B :=
  fun w =>
    match m w with
    | (Return a, t) => let (o, t') := k a w in (o, t ++ t')
    | (HTTPException c d, t) => (HTTPException c d, t)
    | (RequestValidationError m, t) => (RequestValidationError m, t)
    | (Uncaught e, t) => (Uncaught e, t)
    end.

(** [await client.get(...)] *)
Definition client_get (r : http_request) : net http_response :=
  fun w => (Return (w r), [r]).

(** A computation that needs no registry. *)
Definition lift {A} (o : outcome A) : net A := fun _ => (o, []).

Notation "x <- m ;; k" := (bind m (fun x => k))
  (at level 61, m at next level, right associativity).

(** ** The gateway *)

Definition BASE_URL : str := lit "https://registry.smithery.ai".

Record WebSocketUrlRequest : Type := mk_ws_request {
  qualifiedName : str;
  config : dict pyval
}.

Record WebSocketUrlResponse : Type := mk_ws_response {
  wsUrl : str
}.

(** [verify_token] *)
Definition verify_token (authorization : str) : outcome str :=
  if negb (startswith authorization (lit "Bearer "))
  then HTTPException 401 (lit "Invalid authorization header format")
  else
    let token := replace authorization (lit "Bearer ") [] in
    match token with
    | [] => HTTPException 401 (lit "No token provided")
    | _ :: _ => Return token
    end.

(** Truth value of an [Optional[str]] and of an [int]. *)
Definition truthy_str (q : option str) : bool :=
  match q with
  | None => false
  | Some [] => false
  | Some (_ :: _) => true
  end.

Definition truthy_int (n : Z) : bool := negb (n =? 0)%Z.

(** The [params] dict [list_servers] builds. *)
Definition list_servers_params (q : option str) (page page_size : Z)
  : dict qval :=
  let params := [] in
  let params :=
    match q with
    | Some s => if truthy_str q then dict_set params (lit "q") (QStr s)
                else params
    | None => params
    end in
  let params :=
    if truthy_int page then dict_set params (lit "page") (QInt page)
    else params in
  let params :=
    if truthy_int page_size
    then dict_set params (lit "pageSize") (QInt page_size)
    else params in
  params.

(** [list_servers]; [authorization] is what [verify_token] returned. *)
Definition list_servers (q : option str) (page page_size : Z)
    (authorization : str) : net pyval :=
  let params := list_servers_params q page page_size in
  let headers := [(lit "Authorization", authorization)] in
  response <- client_get (mk_request (BASE_URL ++ lit "/servers")
                                     params headers) ;;
  if negb (status_code response =? 200)%Z
  then raise (status_code response)
             (lit "Smithery Registry API error: " ++ text response)
  else ret (json response).

(** [get_server] *)
Definition get_server (qualified_name : str) (authorization : str)
  : net pyval :=
  let headers := [(lit "Authorization", authorization)] in
  response <- client_get (mk_request
                            (BASE_URL ++ lit "/servers/" ++ qualified_name)
                            [] headers) ;;
  if negb (status_code response =? 200)%Z
  then raise (status_code response)
             (lit "Smithery Registry API error: " ++ text response)
  else ret (json response).

(** ** [json.dumps] with its default arguments *)

(** One hexadecimal digit, lower case. *)
Definition hex_digit (n : N) : char :=
  nth (N.to_nat n) (lit "0123456789abcdef") 0%N.

(** ['\\u{0:04x}'.format(n)] for [n < 0x10000] *)
Definition escape_u (n : N) : str :=
  lit "\u" ++ [hex_digit (N.land (N.shiftr n 12) 15);
               hex_digit (N.land (N.shiftr n 8) 15);
               hex_digit (N.land (N.shiftr n 4) 15);
               hex_digit (N.land n 15)].

(** What [ESCAPE_ASCII.sub] puts in place of one character: the short
    escapes of [ESCAPE_DCT], the character itself from space to tilde, a
    [\uXXXX] escape below [0x10000] and a surrogate pair above. *)
Definition escape_char (c : char) : str :=
  if (c =? 92)%N then lit "\\"
  else if (c =? 34)%N then [92; 34]%N
  else if (c =? 8)%N then lit "\b"
  else if (c =? 12)%N then lit "\f"
  else if (c =? 10)%N then lit "\n"
  else if (c =? 13)%N then lit "\r"
  else if (c =? 9)%N then lit "\t"
  else if ((32 <=? c) && (c <=? 126))%N then [c]
  else if (c <? 65536)%N then escape_u c
  else
    let n := (c - 65536)%N in
    let s1 := N.lor 55296 (N.land (N.shiftr n 10) 1023) in
    let s2 := N.lor 56320 (N.land n 1023) in
    escape_u s1 ++ escape_u s2.

(** [py_encode_basestring_ascii] *)
Definition encode_basestring_ascii (s : str) : str :=
  [34%N] ++ flat_map escape_char s ++ [34%N].

Fixpoint uint_str (u : Decimal.uint) : str :=
  match u with
  | Nil => []
  | D0 u => 48%N :: uint_str u
  | D1 u => 49%N :: uint_str u
  | D2 u => 50%N :: uint_str u
  | D3 u => 51%N :: uint_str u
  | D4 u => 52%N :: uint_str u
  | D5 u => 53%N :: uint_str u
  | D6 u => 54%N :: uint_str u
  | D7 u => 55%N :: uint_str u
  | D8 u => 56%N :: uint_str u
  | D9 u => 57%N :: uint_str u
  end.

(** [int.__repr__] *)
Definition int_repr (z : Z) : str :=
  match Z.to_int z with
  | Pos u => uint_str u
  | Neg u => 45%N :: uint_str u
  end.

(** [sep.join(parts)] *)
Fixpoint join (sep : str) (parts : list str) : str :=
  match parts with
  | [] => []
  | [p] => p
  | p :: rest => p ++ sep ++ join sep rest
  end.

(** The encoder: items left to right, [', '] between items and [': ']
    between a key and its value, and a [TypeError] at the first object it has
    no case for. *)
Fixpoint json_dumps (o : pyval) : outcome str :=
  match o with
  | PyNone => Return (lit "null")
  | PyBool true => Return (lit "true")
  | PyBool false => Return (lit "false")
  | PyInt z => Return (int_repr z)
  | PyStr s => Return (encode_basestring_ascii s)
  | PyList l =>
      parts <~ (fix items (l : list pyval) : outcome (list str) :=
                  match l with
                  | [] => Return []
                  | x :: l' =>
                      sx <~ json_dumps x ;
                      rest <~ items l' ;
                      Return (sx :: rest)
                  end) l ;
      Return (lit "[" ++ join (lit ", ") parts ++ lit "]")
  | PyDict d =>
      parts <~ (fix items (d : list (str * pyval)) : outcome (list str) :=
                  match d with
                  | [] => Return []
                  | (k, x) :: d' =>
                      sx <~ json_dumps x ;
                      rest <~ items d' ;
                      Return ((encode_basestring_ascii k ++ lit ": " ++ sx)
                                :: rest)
                  end) d ;
      Return (lit "{" ++ join (lit ", ") parts ++ lit "}")
  | PyOther cls =>
      Uncaught (TypeError (lit "Object of type " ++ cls
                             ++ lit " is not JSON serializable"))
  end.

(** ** [str.encode()], [bytes.decode()] and [base64.b64encode] *)

(** A Python [bytes]: a sequence of integers below 256. *)
Definition bytes := list N.

Definition utf8_encode_char (c : char) : outcome bytes :=
  if (c <? 128)%N then Return [c]
  else if (c <? 2048)%N then
    Return [N.lor 192 (N.shiftr c 6); N.lor 128 (N.land c 63)]
  else if ((55296 <=? c) && (c <=? 57343))%N then Uncaught UnicodeEncodeError
  else if (c <? 65536)%N then
    Return [N.lor 224 (N.shiftr c 12);
            N.lor 128 (N.land (N.shiftr c 6) 63);
            N.lor 128 (N.land c 63)]
  else
    Return [N.lor 240 (N.shiftr c 18);
            N.lor 128 (N.land (N.shiftr c 12) 63);
            N.lor 128 (N.land (N.shiftr c 6) 63);
            N.lor 128 (N.land c 63)].

(** [s.encode()]: UTF-8, strict. *)
Fixpoint utf8_encode (s : str) : outcome bytes :=
  match s with
  | [] => Return []
  | c :: s' =>
      b <~ utf8_encode_char c ;
      rest <~ utf8_encode s' ;
      Return (b ++ rest)
  end.

Definition is_continuation (b : N) : bool := ((128 <=? b) && (b <=? 191))%N.

(** The second byte of a three-byte and of a four-byte sequence has a
    narrower range after [E0], [ED], [F0] and [F4] (no overlong forms, no
    surrogates, nothing above [0x10FFFF]). *)
Definition second_of_3 (b0 b1 : N) : bool :=
  ((if b0 =? 224 then 160 else 128) <=? b1)%N
  && (b1 <=? (if b0 =? 237 then 159 else 191))%N.

Definition second_of_4 (b0 b1 : N) : bool :=
  ((if b0 =? 240 then 144 else 128) <=? b1)%N
  && (b1 <=? (if b0 =? 244 then 143 else 191))%N.

(** [b.decode()]: UTF-8, strict. *)
Fixpoint utf8_decode (b : bytes) : outcome str :=
  match b with
  | [] => Return []
  | b0 :: r =>
      if (b0 <? 128)%N then
        rest <~ utf8_decode r ; Return (b0 :: rest)
      else if ((194 <=? b0) && (b0 <=? 223))%N then
        match r with
        | b1 :: r1 =>
            if is_continuation b1 then
              rest <~ utf8_decode r1 ;
              Return (N.lor (N.shiftl (N.land b0 31) 6) (N.land b1 63) :: rest)
            else Uncaught UnicodeDecodeError
        | _ => Uncaught UnicodeDecodeError
        end
      else if ((224 <=? b0) && (b0 <=? 239))%N then
        match r with
        | b1 :: b2 :: r2 =>
            if second_of_3 b0 b1 && is_continuation b2 then
              rest <~ utf8_decode r2 ;
              Return (N.lor (N.shiftl (N.land b0 15) 12)
                        (N.lor (N.shiftl (N.land b1 63) 6) (N.land b2 63))
                        :: rest)
            else Uncaught UnicodeDecodeError
        | _ => Uncaught UnicodeDecodeError
        end
      else if ((240 <=? b0) && (b0 <=? 244))%N then
        match r with
        | b1 :: b2 :: b3 :: r3 =>
            if second_of_4 b0 b1 && is_continuation b2 && is_continuation b3
            then
              rest <~ utf8_decode r3 ;
              Return (N.lor (N.shiftl (N.land b0 7) 18)
                        (N.lor (N.shiftl (N.land b1 63) 12)
                           (N.lor (N.shiftl (N.land b2 63) 6) (N.land b3 63)))
                        :: rest)
            else Uncaught UnicodeDecodeError
        | _ => Uncaught UnicodeDecodeError
        end
      else Uncaught UnicodeDecodeError
  end.

Definition b64_table : str :=
  lit "ABCDEFGHIJKLMNOPQRSTUVWXYZabcdefghijklmnopqrstuvwxyz0123456789+/".

Definition b64_char (n : N) : N := nth (N.to_nat n) b64_table 0%N.

(** [base64.b64encode]: three bytes give four characters of the standard
    alphabet; one or two bytes left over give two or three characters and
    [=] up to four. *)
Fixpoint b64encode (b : bytes) : bytes :=
  match b with
  | [] => []
  | [x] =>
      [b64_char (N.shiftr x 2);
       b64_char (N.shiftl (N.land x 3) 4);
       61; 61]%N
  | [x; y] =>
      [b64_char (N.shiftr x 2);
       b64_char (N.lor (N.shiftl (N.land x 3) 4) (N.shiftr y 4));
       b64_char (N.shiftl (N.land y 15) 2);
       61%N]
  | x :: y :: z :: b' =>
      [b64_char (N.shiftr x 2);
       b64_char (N.lor (N.shiftl (N.land x 3) 4) (N.shiftr y 4));
       b64_char (N.lor (N.shiftl (N.land y 15) 2) (N.shiftr z 6));
       b64_char (N.land z 63)] ++ b64encode b'
  end.

(** ** The URL builder and the routes *)

(** [create_websocket_url] *)
Definition create_websocket_url (request : WebSocketUrlRequest)
  : net WebSocketUrlResponse :=
  config_json <- lift (json_dumps (PyDict (config request))) ;;
  config_bytes <- lift (utf8_encode config_json) ;;
  config_base64 <- lift (utf8_decode (b64encode config_bytes)) ;;
  let ws_url := lit "https://server.smithery.ai/" ++ qualifiedName request
                  ++ lit "/ws?config=" ++ config_base64 in
  ret (mk_ws_response ws_url).

(** An inbound request, after the framework has read its parameters:
    [None] is a header or query parameter the caller did not send. *)
Inductive inbound : Type :=
| GET_servers (authorization : option str)
              (q : option str) (page pageSize : option Z)
| GET_server (authorization : option str) (qualified_name : str)
| POST_create_websocket_url (authorization : option str)
                            (body : WebSocketUrlRequest).

Inductive reply : Type :=
| Json (body : pyval)
| WsUrl (body : WebSocketUrlResponse).

(** [Query(default)]: the caller's value, or the declared default. *)
Definition Query {A} (default : A) (sent : option A) : A :=
  match sent with
  | Some v => v
  | None => default
  end.

(** [Depends(verify_token)] over [authorization: str = Header(...)]: the
    header is required, and the dependency runs on its value. *)
Definition Depends_verify_token (authorization : option str) : net str :=
  match authorization with
  | None => lift (RequestValidationError (lit "authorization"))
  | Some h => lift (verify_token h)
  end.

(** The three routes. *)
Definition app (r : inbound) : net reply :=
  match r with
  | GET_servers authorization q page pageSize =>
      token <- Depends_verify_token authorization ;;
      body <- list_servers q (Query 1%Z page) (Query 10%Z pageSize) token ;;
      ret (Json body)
  | GET_server authorization qualified_name =>
      token <- Depends_verify_token authorization ;;
      body <- get_server qualified_name token ;;
      ret (Json body)
  | POST_create_websocket_url _ body =>
      r <- create_websocket_url body ;;
      ret (WsUrl r)
  end.

(** ** Reading the URL back: [base64.b64decode] and [json.loads]

    What a client of the URL does with the text after [config=]: it decodes
    the padded base64 text and parses the bytes as JSON.  Numbers with a
    fraction or an exponent are not read (the values above have no
    floating-point case). *)

Definition b64_value (c : N) : option N :=
  if ((65 <=? c) && (c <=? 90))%N then Some (c - 65)%N
  else if ((97 <=? c) && (c <=? 122))%N then Some (c - 71)%N
  else if ((48 <=? c) && (c <=? 57))%N then Some (c + 4)%N
  else if (c =? 43)%N then Some 62%N
  else if (c =? 47)%N then Some 63%N
  else None.

(** Four characters give three bytes; [=] may fill the last group. *)
Fixpoint b64decode (s : bytes) : option bytes :=
  match s with
  | [] => Some []
  | c1 :: c2 :: c3 :: c4 :: s' =>
      match b64_value c1, b64_value c2 with
      | Some v1, Some v2 =>
          let x := N.lor (N.shiftl v1 2) (N.shiftr v2 4) in
          if (c3 =? 61)%N then
            match s' with
            | [] => if (c4 =? 61)%N then Some [x] else None
            | _ :: _ => None
            end
          else
            match b64_value c3 with
            | Some v3 =>
                let y := N.lor (N.shiftl (N.land v2 15) 4) (N.shiftr v3 2) in
                if (c4 =? 61)%N then
                  match s' with
                  | [] => Some [x; y]
                  | _ :: _ => None
                  end
                else
                  match b64_value c4 with
                  | Some v4 =>
                      let z := N.lor (N.shiftl (N.land v3 3) 6) v4 in
                      match b64decode s' with
                      | Some rest => Some (x :: y :: z :: rest)
                      | None => None
                      end
                  | None => None
                  end
            | None => None
            end
      | _, _ => None
      end
  | _ => None
  end.



Definition hex_value (c : char) : option N :=
  if ((48 <=? c) && (c <=? 57))%N then Some (c - 48)%N
  else if ((97 <=? c) && (c <=? 102))%N then Some (c - 87)%N
  else if ((65 <=? c) && (c <=? 70))%N then Some (c - 55)%N
  else None.

(** The four hexadecimal digits of a [\uXXXX] escape. *)
Definition decode_uXXXX (a b c d : char) : option N :=
  match hex_value a, hex_value b, hex_value c, hex_value d with
  | Some x, Some y, Some z, Some w =>
      Some (N.lor (N.shiftl x 12)
              (N.lor (N.shiftl y 8) (N.lor (N.shiftl z 4) w)))
  | _, _, _, _ => None
  end.

Definition is_high_surrogate (u : N) : bool :=
  ((55296 <=? u) && (u <=? 56319))%N.

Definition is_low_surrogate (u : N) : bool :=
  ((56320 <=? u) && (u <=? 57343))%N.

(** The character a one-letter escape stands for. *)
Definition unescape (e : char) : option char :=
  if (e =? 34)%N then Some 34%N
  else if (e =? 92)%N then Some 92%N
  else if (e =? 47)%N then Some 47%N
  else if (e =? 98)%N then Some 8%N
  else if (e =? 102)%N then Some 12%N
  else if (e =? 110)%N then Some 10%N
  else if (e =? 114)%N then Some 13%N
  else if (e =? 116)%N then Some 9%N
  else None.

(** [scanstring], from just after the opening quote: the text of the string
    and what follows its closing quote.  A high surrogate escape directly
    followed by a low surrogate escape is one character. *)
Fixpoint scanstring (s : str) : option (str * str) :=
  match s with
  | [] => None
  | c :: r =>
      if (c =? 34)%N then Some ([], r)
      else if (c <? 32)%N then None
      else if (c =? 92)%N then
        match r with
        | [] => None
        | e :: r1 =>
            if (e =? 117)%N then
              match r1 with
              | h1 :: h2 :: h3 :: h4 :: r2 =>
                  match decode_uXXXX h1 h2 h3 h4 with
                  | None => None
                  | Some uni =>
                      let single :=
                        match scanstring r2 with
                        | Some (t, rest) => Some (uni :: t, rest)
                        | None => None
                        end in
                      if is_high_surrogate uni then
                        match r2 with
                        | bs :: u :: x1 :: x2 :: x3 :: x4 :: r3 =>
                            if ((bs =? 92) && (u =? 117))%N then
                              match decode_uXXXX x1 x2 x3 x4 with
                              | None => None
                              | Some uni2 =>
                                  if is_low_surrogate uni2 then
                                    match scanstring r3 with
                                    | Some (t, rest) =>
                                        Some ((65536
                                               + N.lor
                                                   (N.shiftl (uni - 55296) 10)
                                                   (uni2 - 56320))%N :: t,
                                              rest)
                                    | None => None
                                    end
                                  else single
                              end
                            else single
                        | _ => single
                        end
                      else single
                  end
              | _ => None
              end
            else
              match unescape e with
              | None => None
              | Some x =>
                  match scanstring r1 with
                  | Some (t, rest) => Some (x :: t, rest)
                  | None => None
                  end
              end
        end
      else
        match scanstring r with
        | Some (t, rest) => Some (c :: t, rest)
        | None => None
        end
  end.










(** ** Values that JSON can represent *)

(** A Unicode scalar value: a code point up to [0x10FFFF] that is not a
    surrogate. *)
Definition is_scalar_value (c : char) : bool :=
  ((c <? 55296) || ((57344 <=? c) && (c <=? 1114111)))%N.

(** A text: a string of scalar values. *)
Definition is_text (s : str) : bool := forallb is_scalar_value s.








(** A sequence of integers that are bytes. *)
Definition is_bytes (b : bytes) : bool := forallb (fun x => (x <? 256)%N) b.

(** A text of ASCII characters only. *)
Definition is_ascii (s : str) : bool := forallb (fun c => (c <? 128)%N) s.




(** The class of the first object the encoder has no case for, in the order
    the encoder visits the value: items left to right, depth first. *)
Fixpoint first_other (v : pyval) : option str :=
  match v with
  | PyOther cls => Some cls
  | PyList l =>
      (fix items (l : list pyval) : option str :=
         match l with
         | [] => None
         | x :: l' =>
             match first_other x with
             | Some cls => Some cls
             | None => items l'
             end
         end) l
  | PyDict d =>
      (fix items (d : list (str * pyval)) : option str :=
         match d with
         | [] => None
         | (_, x) :: d' =>
             match first_other x with
             | Some cls => Some cls
             | None => items d'
             end
         end) d
  | _ => None
  end.

(** The message of the [TypeError] for an object of class [cls]. *)
Definition not_serializable (cls : str) : exn :=
  TypeError (lit "Object of type " ++ cls ++ lit " is not JSON serializable").

(** A character of the base64 alphabet, or the padding character. *)
Definition is_b64_char (c : N) : bool :=
  existsb (N.eqb c) b64_table || (c =? 61)%N.

Definition is_b64_text (s : str) : bool := forallb is_b64_char s.

(** ** Vocabulary of the statements *)

(** [sub in s] *)
Definition contains (s sub : str) : bool := occurs sub s.

(** The outbound requests a route issues, and its outcome. *)
Definition outbound (r : inbound) (w : registry) : list http_request :=
  snd (app r w).

Definition result (r : inbound) (w : registry) : outcome reply :=
  fst (app r w).


(** A query parameter of an outbound request. *)
Definition sent_param (r : http_request) (name : string) : option qval :=
  dict_get (req_params r) (lit name).

(** A List or Detail request carrying the header [h]. *)
Definition forwards (r : inbound) (h : str) : Prop :=
  match r with
  | GET_servers a _ _ _ => a = Some h
  | GET_server a _ => a = Some h
  | POST_create_websocket_url _ _ => False
  end.

(** The one request a List or Detail route sends for the token [tok]. *)
Definition forwarded (r : inbound) (tok : str) : http_request :=
  match r with
  | GET_servers _ q page pageSize =>
      mk_request (BASE_URL ++ lit "/servers")
                 (list_servers_params q (Query 1%Z page) (Query 10%Z pageSize))
                 [(lit "Authorization", tok)]
  | GET_server _ qualified_name =>
      mk_request (BASE_URL ++ lit "/servers/" ++ qualified_name)
                 [] [(lit "Authorization", tok)]
  | POST_create_websocket_url _ _ => mk_request [] [] []
  end.

Definition quote : str := [34%N].

(** A registry that answers every request with 404 and the body
    [{"error":"not found"}]. *)
Definition not_found : registry :=
  fun _ => mk_response 404
             (lit "{" ++ quote ++ lit "error" ++ quote ++ lit ":"
                ++ quote ++ lit "not found" ++ quote ++ lit "}")
             PyNone.

(* ================================================================== *)
(** * Part II: properties *)
(* ================================================================== *)

(** ** Strings *)

Lemma str_eqb_eq (a b : str) : str_eqb a b = true <-> a = b.
Proof.
  revert b; induction a as [|x a IH]; intros [|y b]; simpl;
    try (split; [discriminate | discriminate]); try tauto.
  rewrite andb_true_iff, N.eqb_eq, IH.
  split; [intros [-> ->]; reflexivity | intros [= -> ->]; auto].
Qed.

Lemma str_eqb_refl (a : str) : str_eqb a a = true.
Proof. apply str_eqb_eq; reflexivity. Qed.

Lemma str_eqb_neq (a b : str) : str_eqb a b = false <-> a <> b.
Proof.
  rewrite <- str_eqb_eq. destruct (str_eqb a b); split; congruence.
Qed.

Lemma startswith_app (p s : str) : startswith (p ++ s) p = true.
Proof.
  induction p as [|c p IH]; simpl; [reflexivity|].
  now rewrite N.eqb_refl.
Qed.

Lemma startswith_iff (s p : str) :
  startswith s p = true <-> exists t, s = p ++ t.
Proof.
  revert s; induction p as [|c p IH]; intros s; simpl.
  - split; [exists s; reflexivity | reflexivity].
  - destruct s as [|d s].
    + split; [discriminate | intros [t [=]]].
    + rewrite andb_true_iff, N.eqb_eq, IH. split.
      * intros [-> [t ->]]. exists t; reflexivity.
      * intros [t [= -> ->]]. split; [reflexivity | exists t; reflexivity].
Qed.

Lemma occurs_app (sub a b : str) : occurs sub (a ++ sub ++ b) = true.
Proof.
  induction a as [|c a IH]; simpl.
  - destruct sub as [|x sub]; simpl.
    + destruct b; reflexivity.
    + now rewrite N.eqb_refl, startswith_app.
  - rewrite IH. apply orb_true_r.
Qed.

Lemma replace_scan_skip (old new a b : str) :
  replace_scan old new (List.length a) (a ++ b) = replace_scan old new 0 b.
Proof.
  induction a as [|c a IH]; simpl; [|exact IH].
  destruct b; reflexivity.
Qed.

(** An occurrence at the head is replaced and the scan goes on after it. *)
Lemma replace_head (c : char) (old new s : str) :
  replace ((c :: old) ++ s) (c :: old) new = new ++ replace s (c :: old) new.
Proof.
  unfold replace. simpl. rewrite N.eqb_refl, startswith_app. simpl.
  now rewrite replace_scan_skip.
Qed.

(** Without an occurrence nothing changes. *)
Lemma replace_without (c : char) (old new s : str) :
  occurs (c :: old) s = false -> replace s (c :: old) new = s.
Proof.
  unfold replace. induction s as [|x s IH]; [reflexivity|].
  intros H. cbn [occurs] in H. apply orb_false_iff in H as [H1 H2].
  cbn [replace_scan]. rewrite H1. f_equal. auto.
Qed.

(** ** The credential gate *)

Lemma Bearer_cons : lit "Bearer " = 66%N :: lit "earer ".
Proof. reflexivity. Qed.

Lemma replace_Bearer (T : str) :
  replace (lit "Bearer " ++ T) (lit "Bearer ") [] = replace T (lit "Bearer ") [].
Proof. rewrite Bearer_cons. apply (replace_head 66%N (lit "earer ") [] T). Qed.


(** What the gate does with a header that has the prefix. *)
Lemma verify_token_Bearer (T : str) :
  verify_token (lit "Bearer " ++ T) =
  match replace T (lit "Bearer ") [] with
  | [] => HTTPException 401 (lit "No token provided")
  | c :: tok => Return (c :: tok)
  end.
Proof.
  unfold verify_token. rewrite startswith_app, replace_Bearer. cbn [negb].
  destruct (replace T _ _); reflexivity.
Qed.

(** What the gate does with a header that lacks the prefix. *)
Lemma verify_token_no_prefix (h : str) :
  startswith h (lit "Bearer ") = false ->
  verify_token h = HTTPException 401 (lit "Invalid authorization header format").
Proof. intros H. unfold verify_token. now rewrite H. Qed.

(** What the gate accepts is never empty. *)
Lemma verify_token_nonempty (h tok : str) :
  verify_token h = Return tok -> tok <> [].
Proof.
  unfold verify_token. destruct (negb _); [discriminate|].
  destruct (replace _ _ _); [discriminate|]. intros [= <-]. discriminate.
Qed.

(** ** The routes *)

(** A List or Detail request with an accepted header sends exactly one
    request, and its outcome is decided by the answer's status. *)
Lemma app_forwards (r : inbound) (h tok : str) (w : registry) :
  forwards r h -> verify_token h = Return tok ->
  app r w =
  (let response := w (forwarded r tok) in
   if negb (status_code response =? 200)%Z
   then HTTPException (status_code response)
          (lit "Smithery Registry API error: " ++ text response)
   else Return (Json (json response)),
   [forwarded r tok]).
Proof.
  destruct r as [a q page pageSize | a qn | a body]; simpl;
    intros Ha Hv; [subst a | subst a | contradiction];
    unfold app, bind, Depends_verify_token, lift; rewrite Hv;
    unfold list_servers, get_server, bind, client_get; cbn [forwarded];
    destruct (negb _); reflexivity.
Qed.

(** A refused header sends nothing. *)
Lemma app_refused (r : inbound) (h : str) (w : registry) (c : Z) (d : str) :
  forwards r h -> verify_token h = HTTPException c d ->
  app r w = (HTTPException c d, []).
Proof.
  destruct r as [a q page pageSize | a qn | a body]; simpl;
    intros Ha Hv; [subst a | subst a | contradiction];
    unfold app, bind, Depends_verify_token, lift; rewrite Hv; reflexivity.
Qed.

(** The parameters of a List request, item by item. *)
Lemma list_servers_params_spec (q : option str) (page page_size : Z) :
  list_servers_params q page page_size =
  (match q with
   | Some (c :: s) => [(lit "q", QStr (c :: s))]
   | _ => []
   end)
  ++ (if (page =? 0)%Z then [] else [(lit "page", QInt page)])
  ++ (if (page_size =? 0)%Z then [] else [(lit "pageSize", QInt page_size)]).
Proof.
  unfold list_servers_params, truthy_int.
  destruct q as [[|c s]|]; destruct (page =? 0)%Z; destruct (page_size =? 0)%Z;
    reflexivity.
Qed.



(** C2, as the code has it: for a token [T] in which [Bearer ] does not
    occur, the header [Bearer T] is accepted exactly when [T] is not empty,
    and [T] is the validated token; the bare prefix is refused with 401; a
    header without the prefix is refused with 401; an absent header never
    reaches the gate, it is refused as a missing required parameter (422). *)
Theorem verify_token_accepts_nonempty_token (T h : str) :
  occurs (lit "Bearer ") T = false ->
  startswith h (lit "Bearer ") = false ->
  (verify_token (lit "Bearer " ++ T) = Return T <-> T <> [])
  /\ (T = [] ->
      verify_token (lit "Bearer " ++ T)
      = HTTPException 401 (lit "No token provided"))
  /\ verify_token h
     = HTTPException 401 (lit "Invalid authorization header format")
  /\ (forall w : registry,
         Depends_verify_token None w
         = (RequestValidationError (lit "authorization"), [])
         /\ http_status (fst (Depends_verify_token None w)) = 422%Z).
Proof.
  intros HT Hh.
  assert (E : replace T (lit "Bearer ") [] = T)
    by (rewrite Bearer_cons in *; now apply replace_without).
  repeat split.
  - intros H ->. discriminate H.
  - intros HT'. rewrite verify_token_Bearer, E.
    destruct T; [contradiction | reflexivity].
  - intros ->. reflexivity.
  - now apply verify_token_no_prefix.
Qed.

(** The headers [Bearer abc] and [Basic abc]. *)
Lemma verify_token_accepts_nonempty_token_witness :
  verify_token (lit "Bearer " ++ lit "abc") = Return (lit "abc")
  /\ verify_token (lit "Basic abc")
     = HTTPException 401 (lit "Invalid authorization header format").
Proof.
  destruct (@verify_token_accepts_nonempty_token (lit "abc") (lit "Basic abc"))
    as (H1 & _ & H3 & _); [reflexivity | reflexivity |].
  split; [apply H1; discriminate | exact H3].
Defined.

(** C2 does not hold as stated: the token [Bearer ] is not empty and the
    header [Bearer Bearer ] is refused, and an absent header is not answered
    by a 401. *)
Lemma verify_token_claim_counterexample :
  ~ (forall T : str, verify_token (lit "Bearer " ++ T) = Return T <-> T <> [])
  /\ ~ (forall w : registry,
           exists d, fst (Depends_verify_token None w) = HTTPException 401 d).
Proof.
  split.
  - intros H. destruct (H (lit "Bearer ")) as [_ H2].
    assert (E : verify_token (lit "Bearer " ++ lit "Bearer ")
                = Return (lit "Bearer ")) by (apply H2; discriminate).
    discriminate E.
  - intros H. destruct (H not_found) as [d Hd]. discriminate Hd.
Qed.

(** C3 at the header [Bearer abc]: the one request the List route and the
    Detail route send upstream carries [Authorization: abc], without the
    [Bearer ] prefix. *)
Theorem forwarded_header_at_Bearer_abc (w : registry) :
  outbound (GET_servers (Some (lit "Bearer abc")) None None None) w
  = [mk_request (lit "https://registry.smithery.ai/servers")
                [(lit "page", QInt 1); (lit "pageSize", QInt 10)]
                [(lit "Authorization", lit "abc")]]
  /\ outbound (GET_server (Some (lit "Bearer abc")) (lit "acme/tool")) w
     = [mk_request (lit "https://registry.smithery.ai/servers/acme/tool")
                   []
                   [(lit "Authorization", lit "abc")]].
Proof.
  unfold outbound.
  rewrite (@app_forwards (GET_servers (Some (lit "Bearer abc")) None None None)
             (lit "Bearer abc") (lit "abc") w eq_refl eq_refl).
  rewrite (@app_forwards (GET_server (Some (lit "Bearer abc")) (lit "acme/tool"))
             (lit "Bearer abc") (lit "abc") w eq_refl eq_refl).
  split; reflexivity.
Qed.

(** C4, as the code has it: the List route sends [q] exactly when the
    caller's [q] is a non-empty string, [page] exactly when the caller's page
    (1 when omitted) is not zero, [pageSize] exactly when the caller's page
    size (10 when omitted) is not zero, each with that value, in this order,
    and nothing else. *)
Theorem list_servers_sends_truthy_params
    (w : registry) (h tok : str) (q : option str) (page pageSize : option Z) :
  verify_token h = Return tok ->
  exists req,
    outbound (GET_servers (Some h) q page pageSize) w = [req]
    /\ req_params req =
       (match q with
        | Some (c :: s) => [(lit "q", QStr (c :: s))]
        | _ => []
        end)
       ++ (if (Query 1 page =? 0)%Z then []
           else [(lit "page", QInt (Query 1%Z page))])
       ++ (if (Query 10 pageSize =? 0)%Z then []
           else [(lit "pageSize", QInt (Query 10%Z pageSize))]).
Proof.
  intros Hv. exists (forwarded (GET_servers (Some h) q page pageSize) tok).
  unfold outbound.
  rewrite (@app_forwards (GET_servers (Some h) q page pageSize) h tok w
             eq_refl Hv). split; [reflexivity|].
  apply list_servers_params_spec.
Qed.

(** With [q="search"], [page=2], [pageSize=5] exactly these three are sent. *)
Lemma list_servers_sends_truthy_params_witness :
  exists req,
    outbound (GET_servers (Some (lit "Bearer t")) (Some (lit "search"))
                          (Some 2%Z) (Some 5%Z)) not_found = [req]
    /\ req_params req = [(lit "q", QStr (lit "search"));
                         (lit "page", QInt 2); (lit "pageSize", QInt 5)].
Proof.
  apply (@list_servers_sends_truthy_params not_found (lit "Bearer t") (lit "t")
           (Some (lit "search")) (Some 2%Z) (Some 5%Z)).
  reflexivity.
Defined.

(** C4 does not hold as stated: a caller who omits [page] still has
    [page=1] sent upstream. *)
Lemma list_servers_claim_counterexample :
  ~ (forall (w : registry) (h : str) (q : option str) (page pageSize : option Z)
            (req : http_request),
        In req (outbound (GET_servers (Some h) q page pageSize) w) ->
        page = None -> sent_param req "page" = None).
Proof.
  intros H.
  specialize (H not_found (lit "Bearer t") None None None
                (mk_request (lit "https://registry.smithery.ai/servers")
                            [(lit "page", QInt 1); (lit "pageSize", QInt 10)]
                            [(lit "Authorization", lit "t")])
                (or_introl eq_refl) eq_refl).
  discriminate H.
Qed.

(** C10: on the List route a parameter whose value is falsy is not sent even
    when the caller gave it ([page=0], [pageSize=0], an empty [q]), and an
    omitted [page] or [pageSize] is sent with its default, 1 or 10. *)
Theorem list_servers_drops_falsy_sends_defaults
    (w : registry) (h tok : str) (q : option str) (page pageSize : option Z) :
  verify_token h = Return tok ->
  exists req,
    outbound (GET_servers (Some h) q page pageSize) w = [req]
    /\ (page = Some 0%Z -> sent_param req "page" = None)
    /\ (pageSize = Some 0%Z -> sent_param req "pageSize" = None)
    /\ (q = Some [] -> sent_param req "q" = None)
    /\ (page = None -> sent_param req "page" = Some (QInt 1))
    /\ (pageSize = None -> sent_param req "pageSize" = Some (QInt 10)).
Proof.
  intros Hv. exists (forwarded (GET_servers (Some h) q page pageSize) tok).
  unfold outbound.
  rewrite (@app_forwards (GET_servers (Some h) q page pageSize) h tok w
             eq_refl Hv).
  split; [reflexivity|].
  unfold sent_param. cbn [forwarded req_params snd].
  rewrite list_servers_params_spec.
  repeat split; intros ->; cbn [Query Z.eqb];
    try destruct q as [[|c s]|];
    try destruct (Query 1 page =? 0)%Z;
    try destruct (Query 10 pageSize =? 0)%Z; reflexivity.
Qed.

(** An empty [q], [page=0] and no [pageSize]: only [pageSize=10] is sent. *)
Lemma list_servers_drops_falsy_sends_defaults_witness :
  exists req,
    outbound (GET_servers (Some (lit "Bearer t")) (Some []) (Some 0%Z) None)
             not_found = [req]
    /\ sent_param req "page" = None
    /\ sent_param req "q" = None
    /\ sent_param req "pageSize" = Some (QInt 10).
Proof.
  destruct (@list_servers_drops_falsy_sends_defaults not_found
              (lit "Bearer t") (lit "t") (Some []) (Some 0%Z) None eq_refl)
    as (req & E & H1 & _ & H3 & _ & H5).
  exists req. repeat split; auto.
Defined.

(** C5: when the registry answers a List or Detail request with a status
    outside 200..299, the route fails with an [HTTPException] of that very
    status whose detail contains the registry's body text. *)
Theorem upstream_failure_is_propagated
    (r : inbound) (h tok : str) (w : registry) :
  forwards r h -> verify_token h = Return tok ->
  exists req,
    outbound r w = [req]
    /\ (~ (200 <= status_code (w req) < 300)%Z ->
        exists detail,
          result r w = HTTPException (status_code (w req)) detail
          /\ http_status (result r w) = status_code (w req)
          /\ contains detail (text (w req)) = true).
Proof.
  intros Hr Hv. exists (forwarded r tok). unfold outbound, result.
  rewrite (@app_forwards r h tok w Hr Hv). split; [reflexivity|].
  intros Hs. cbn [fst].
  destruct (Z.eqb_spec (status_code (w (forwarded r tok))) 200) as [E|E];
    [lia|]. cbn [negb].
  eexists. split; [reflexivity|]. split; [reflexivity|].
  unfold contains.
  rewrite <- (List.app_nil_r (text (w (forwarded r tok)))) at 2.
  apply occurs_app.
Qed.

(** The Detail route against a registry that answers 404 with the body
    [{"error":"not found"}]. *)
Lemma upstream_failure_is_propagated_witness :
  exists detail,
    result (GET_server (Some (lit "Bearer t")) (lit "acme/tool")) not_found
    = HTTPException 404 detail
    /\ contains detail
         (lit "{" ++ quote ++ lit "error" ++ quote ++ lit ":"
            ++ quote ++ lit "not found" ++ quote ++ lit "}") = true.
Proof.
  destruct (@upstream_failure_is_propagated
              (GET_server (Some (lit "Bearer t")) (lit "acme/tool"))
              (lit "Bearer t") (lit "t") not_found eq_refl eq_refl)
    as (req & _ & H).
  destruct H as (detail & E & _ & C); [simpl; lia|].
  exists detail. split; [exact E | exact C].
Defined.

(** ** The URL builder runs locally *)

(** Induction on Python values, with the items of a list and the values of a
    dict as induction hypotheses. *)
Section pyval_induction.
Variable P : pyval -> Prop.
Hypothesis HNone : P PyNone.
Hypothesis HBool : forall b, P (PyBool b).
Hypothesis HInt : forall z, P (PyInt z).
Hypothesis HStr : forall s, P (PyStr s).
Hypothesis HList : forall l, Forall P l -> P (PyList l).
Hypothesis HDict : forall d, Forall (fun kv => P (snd kv)) d -> P (PyDict d).
Hypothesis HOther : forall cls, P (PyOther cls).

Fixpoint pyval_nested_ind (v : pyval) : P v :=
  match v with
  | PyNone => HNone
  | PyBool b => HBool b
  | PyInt z => HInt z
  | PyStr s => HStr s
  | PyList l =>
      HList ((fix items (l : list pyval) : Forall P l :=
                match l with
                | [] => Forall_nil P
                | x :: l' => Forall_cons x (pyval_nested_ind x) (items l')
                end) l)
  | PyDict d =>
      HDict ((fix items (d : list (str * pyval))
                : Forall (fun kv => P (snd kv)) d :=
                match d with
                | [] => Forall_nil _
                | kv :: d' =>
                    Forall_cons kv (pyval_nested_ind (snd kv)) (items d')
                end) d)
  | PyOther cls => HOther cls
  end.
End pyval_induction.

(** The handler is a local computation: dump, encode, base64, template; it
    never calls the registry. *)
Lemma create_websocket_url_local (request : WebSocketUrlRequest) (w : registry) :
  create_websocket_url request w =
  (config_json <~ json_dumps (PyDict (config request)) ;
   config_bytes <~ utf8_encode config_json ;
   config_base64 <~ utf8_decode (b64encode config_bytes) ;
   Return (mk_ws_response
             (lit "https://server.smithery.ai/" ++ qualifiedName request
                ++ lit "/ws?config=" ++ config_base64)),
   []).
Proof.
  unfold create_websocket_url, bind, lift, ret, obind.
  destruct (json_dumps _) as [config_json| | |]; try reflexivity.
  destruct (utf8_encode _) as [config_bytes| | |]; try reflexivity.
  destruct (utf8_decode _) as [config_base64| | |]; reflexivity.
Qed.

Lemma app_POST_create_websocket_url
    (a : option str) (request : WebSocketUrlRequest) (w : registry) :
  app (POST_create_websocket_url a request) w =
  (r <~ fst (create_websocket_url request w) ; Return (WsUrl r), []).
Proof.
  unfold app, bind, ret. rewrite create_websocket_url_local. cbn [fst].
  destruct (obind _ _); reflexivity.
Qed.


(** C6: for [qualifiedName="acme/tool"] and [config={"key": "value"}] the
    configuration is dumped as the text [{"key": "value"}], and the URL is
    [https://server.smithery.ai/acme/tool/ws?config=] followed by the base64
    encoding of that text, [eyJrZXkiOiAidmFsdWUifQ==]. *)
Theorem create_websocket_url_acme_tool (w : registry) :
  let request :=
    mk_ws_request (lit "acme/tool") [(lit "key", PyStr (lit "value"))] in
  let config_json :=
    lit "{" ++ quote ++ lit "key" ++ quote ++ lit ": "
      ++ quote ++ lit "value" ++ quote ++ lit "}" in
  json_dumps (PyDict (config request)) = Return config_json
  /\ create_websocket_url request w =
     (Return (mk_ws_response
                (lit "https://server.smithery.ai/acme/tool/ws?config="
                   ++ b64encode config_json)), [])
  /\ b64encode config_json = lit "eyJrZXkiOiAidmFsdWUifQ==".
Proof.
  cbv zeta. rewrite create_websocket_url_local.
  split; [reflexivity|]. split; reflexivity.
Qed.

(** C7: the URL builder is deterministic.  Two requests with the same
    identifier and the same configuration get the same answer, whatever the
    registry and whatever headers came with them, and no outbound request is
    made. *)
Theorem create_websocket_url_deterministic
    (r1 r2 : WebSocketUrlRequest) (w1 w2 : registry) (a1 a2 : option str) :
  qualifiedName r1 = qualifiedName r2 ->
  config r1 = config r2 ->
  create_websocket_url r1 w1 = create_websocket_url r2 w2
  /\ app (POST_create_websocket_url a1 r1) w1
     = app (POST_create_websocket_url a2 r2) w2
  /\ outbound (POST_create_websocket_url a1 r1) w1 = [].
Proof.
  destruct r1 as [n1 c1], r2 as [n2 c2]. cbn [qualifiedName config].
  intros -> ->. unfold outbound.
  rewrite !app_POST_create_websocket_url, !create_websocket_url_local.
  repeat split.
Qed.

(** The same request against two registries, with and without a header. *)
Lemma create_websocket_url_deterministic_witness :
  app (POST_create_websocket_url None
         (mk_ws_request (lit "acme/tool") [(lit "key", PyStr (lit "value"))]))
      not_found
  = app (POST_create_websocket_url (Some (lit "Bearer t"))
           (mk_ws_request (lit "acme/tool") [(lit "key", PyStr (lit "value"))]))
        (fun _ => mk_response 200 [] PyNone).
Proof.
  apply (@create_websocket_url_deterministic
           (mk_ws_request (lit "acme/tool") [(lit "key", PyStr (lit "value"))])
           (mk_ws_request (lit "acme/tool") [(lit "key", PyStr (lit "value"))])
           not_found (fun _ => mk_response 200 [] PyNone)
           None (Some (lit "Bearer t")) eq_refl eq_refl).
Defined.




(** ** Bits as arithmetic *)

Lemma land_shiftl_low (a b k : N) :
  (b < 2 ^ k)%N -> N.land (N.shiftl a k) b = 0%N.
Proof.
  intros Hb. apply N.bits_inj. intros i. rewrite N.land_spec, N.bits_0.
  destruct (N.lt_ge_cases i k) as [Hi|Hi].
  - now rewrite N.shiftl_spec_low.
  - destruct (N.eq_dec b 0) as [->|Hnz]; [now rewrite N.bits_0, andb_false_r|].
    rewrite (N.bits_above_log2 b i); [apply andb_false_r|].
    apply N.log2_lt_pow2; [lia|].
    eapply N.lt_le_trans; [exact Hb|]. apply N.pow_le_mono_r; lia.
Qed.

(** Or-ing below a shift is adding. *)
Lemma lor_shiftl_low (a b k : N) :
  (b < 2 ^ k)%N -> N.lor (N.shiftl a k) b = (a * 2 ^ k + b)%N.
Proof.
  intros Hb. rewrite <- N.shiftl_mul_pow2.
  rewrite <- N.lxor_lor by now apply land_shiftl_low.
  symmetry. apply N.add_nocarry_lxor. now apply land_shiftl_low.
Qed.

Lemma land_low (a k : N) : N.land a (N.ones k) = (a mod 2 ^ k)%N.
Proof. apply N.land_ones. Qed.

(** Linear arithmetic with division and remainder by constants. *)
Ltac divmod := zify; Z.to_euclidean_division_equations; lia.

(** The powers of two that occur, as numerals. *)
Ltac pow2_numerals :=
  change (2 ^ 2)%N with 4%N in *;
  change (2 ^ 4)%N with 16%N in *;
  change (2 ^ 6)%N with 64%N in *;
  change (2 ^ 8)%N with 256%N in *;
  change (2 ^ 10)%N with 1024%N in *;
  change (2 ^ 12)%N with 4096%N in *.

(** Masks and shifts by constants, read as remainders and quotients. *)
Ltac bits_to_arith :=
  change 3%N with (N.ones 2) in *;
  change 15%N with (N.ones 4) in *;
  change 63%N with (N.ones 6) in *;
  change 1023%N with (N.ones 10) in *;
  rewrite ?land_low, ?N.shiftr_div_pow2 in *;
  pow2_numerals.

(** ** Hexadecimal escapes *)

(** Facts about a number below a small bound, checked case by case. *)
Lemma below_cases (P : N -> Prop) (bound : nat) :
  (forall n : nat, (n < bound)%nat -> P (N.of_nat n)) ->
  forall k : N, (k < N.of_nat bound)%N -> P k.
Proof.
  intros H k Hk. rewrite <- (N2Nat.id k). apply H. lia.
Qed.

Lemma hex_value_digit (k : N) :
  (k < 16)%N -> hex_value (hex_digit k) = Some k.
Proof.
  revert k. apply (@below_cases _ 16). intros n Hn.
  do 16 (destruct n as [|n]; [reflexivity|]). lia.
Qed.

Lemma hex_digit_ascii (k : N) : (hex_digit k <? 128)%N = true.
Proof.
  unfold hex_digit.
  destruct (nth_in_or_default (N.to_nat k) (lit "0123456789abcdef") 0%N)
    as [H| ->]; [|reflexivity].
  revert H. generalize (nth (N.to_nat k) (lit "0123456789abcdef") 0%N).
  intros c H. cbn in H.
  repeat (destruct H as [<-|H]; [reflexivity|]). destruct H.
Qed.

(** Reading the four digits of [escape_u n] gives [n] back. *)
Lemma decode_escape_u (n : N) :
  (n < 65536)%N ->
  decode_uXXXX (hex_digit (N.land (N.shiftr n 12) 15))
               (hex_digit (N.land (N.shiftr n 8) 15))
               (hex_digit (N.land (N.shiftr n 4) 15))
               (hex_digit (N.land n 15)) = Some n.
Proof.
  intros Hn. unfold decode_uXXXX.
  assert (B : forall m, (N.land m 15 < 16)%N).
  { intros m. bits_to_arith. apply N.mod_lt. discriminate. }
  rewrite !hex_value_digit by apply B. f_equal.
  bits_to_arith.
  rewrite (@lor_shiftl_low _ _ 4) by (apply N.mod_lt; discriminate).
  rewrite (@lor_shiftl_low _ _ 8) by (pow2_numerals; divmod).
  rewrite (@lor_shiftl_low _ _ 12) by (pow2_numerals; divmod).
  pow2_numerals. divmod.
Qed.

(** The two halves of a surrogate pair, as numbers. *)
Lemma high_surrogate_of (c : N) :
  (65536 <= c <= 1114111)%N ->
  N.lor 55296 (N.land (N.shiftr (c - 65536) 10) 1023)
  = (55296 + (c - 65536) / 1024)%N.
Proof.
  intros Hc. change 55296%N with (N.shiftl 54 10) at 1.
  bits_to_arith. rewrite lor_shiftl_low by (apply N.mod_lt; discriminate).
  pow2_numerals. divmod.
Qed.

Lemma low_surrogate_of (c : N) :
  N.lor 56320 (N.land (c - 65536) 1023)
  = (56320 + (c - 65536) mod 1024)%N.
Proof.
  change 56320%N with (N.shiftl 55 10) at 1.
  bits_to_arith. rewrite lor_shiftl_low by (apply N.mod_lt; discriminate).
  reflexivity.
Qed.

Lemma surrogates_combine (c : N) :
  (65536 <= c <= 1114111)%N ->
  (65536 + N.lor (N.shiftl (55296 + (c - 65536) / 1024 - 55296) 10)
                 (56320 + (c - 65536) mod 1024 - 56320))%N = c.
Proof.
  intros Hc.
  replace (55296 + (c - 65536) / 1024 - 55296)%N with ((c - 65536) / 1024)%N
    by divmod.
  replace (56320 + (c - 65536) mod 1024 - 56320)%N with ((c - 65536) mod 1024)%N
    by divmod.
  rewrite lor_shiftl_low by (apply N.mod_lt; discriminate).
  pow2_numerals. divmod.
Qed.

(** ** Strings: [scanstring] reads what [encode_basestring_ascii] writes *)

(** Comparisons of numbers decided by arithmetic. *)
Ltac compare_N :=
  repeat match goal with
         | H : context [(?a <? ?b)%N] |- _ => destruct (N.ltb_spec a b)
         | H : context [(?a <=? ?b)%N] |- _ => destruct (N.leb_spec a b)
         | H : context [(?a =? ?b)%N] |- _ => destruct (N.eqb_spec a b)
         | |- context [(?a <? ?b)%N] => destruct (N.ltb_spec a b)
         | |- context [(?a <=? ?b)%N] => destruct (N.leb_spec a b)
         | |- context [(?a =? ?b)%N] => destruct (N.eqb_spec a b)
         end;
  cbn [andb orb negb] in *; try discriminate; try reflexivity; try lia.

Lemma scalar_not_high (c : char) :
  is_scalar_value c = true -> is_high_surrogate c = false.
Proof. unfold is_scalar_value, is_high_surrogate. intros H. compare_N. Qed.

Lemma scalar_bound (c : char) :
  is_scalar_value c = true -> (c <= 1114111)%N.
Proof. unfold is_scalar_value. intros H. compare_N. Qed.

(** The scanner at a [\uXXXX] escape. *)
Lemma scanstring_u (h1 h2 h3 h4 : char) (t : str) :
  scanstring (92 :: 117 :: h1 :: h2 :: h3 :: h4 :: t)%N =
  match decode_uXXXX h1 h2 h3 h4 with
  | None => None
  | Some uni =>
      let single :=
        match scanstring t with
        | Some (s, rest) => Some (uni :: s, rest)
        | None => None
        end in
      if is_high_surrogate uni then
        match t with
        | bs :: u :: x1 :: x2 :: x3 :: x4 :: r3 =>
            if ((bs =? 92) && (u =? 117))%N then
              match decode_uXXXX x1 x2 x3 x4 with
              | None => None
              | Some uni2 =>
                  if is_low_surrogate uni2 then
                    match scanstring r3 with
                    | Some (s, rest) =>
                        Some ((65536 + N.lor (N.shiftl (uni - 55296) 10)
                                             (uni2 - 56320))%N :: s, rest)
                    | None => None
                    end
                  else single
              end
            else single
        | _ => single
        end
      else single
  end.
Proof. reflexivity. Qed.

(** One escaped character is read back as that character. *)
Lemma scanstring_escape_char (c : char) (t : str) :
  is_scalar_value c = true ->
  scanstring (escape_char c ++ t) =
  match scanstring t with
  | Some (s, rest) => Some (c :: s, rest)
  | None => None
  end.
Proof.
  intros Hc. unfold escape_char.
  destruct (c =? 92)%N eqn:E92; [apply N.eqb_eq in E92; now subst|].
  destruct (c =? 34)%N eqn:E34; [apply N.eqb_eq in E34; now subst|].
  destruct (c =? 8)%N eqn:E8; [apply N.eqb_eq in E8; now subst|].
  destruct (c =? 12)%N eqn:E12; [apply N.eqb_eq in E12; now subst|].
  destruct (c =? 10)%N eqn:E10; [apply N.eqb_eq in E10; now subst|].
  destruct (c =? 13)%N eqn:E13; [apply N.eqb_eq in E13; now subst|].
  destruct (c =? 9)%N eqn:E9; [apply N.eqb_eq in E9; now subst|].
  destruct ((32 <=? c) && (c <=? 126))%N eqn:Ep.
  - change ([c] ++ t) with (c :: t). simpl scanstring. rewrite E34, E92.
    replace (c <? 32)%N with false by compare_N. reflexivity.
  - destruct (c <? 65536)%N eqn:E16.
    + unfold escape_u. change (lit "\u") with [92; 117]%N. cbn [List.app].
      rewrite scanstring_u, decode_escape_u by compare_N.
      cbv zeta. now rewrite scalar_not_high.
    + pose proof (scalar_bound c Hc) as Hb.
      assert (Hl : (65536 <= c)%N) by compare_N.
      cbv zeta. rewrite high_surrogate_of, low_surrogate_of by lia.
      unfold escape_u. change (lit "\u") with [92; 117]%N. cbn [List.app].
      rewrite scanstring_u, decode_escape_u by divmod.
      cbv zeta.
      replace (is_high_surrogate (55296 + (c - 65536) / 1024)) with true
        by (unfold is_high_surrogate; symmetry; apply andb_true_iff;
            split; apply N.leb_le; divmod).
      change ((92 =? 92) && (117 =? 117))%N with true. cbv iota.
      rewrite decode_escape_u by divmod.
      replace (is_low_surrogate (56320 + (c - 65536) mod 1024)) with true
        by (unfold is_low_surrogate; symmetry; apply andb_true_iff;
            split; apply N.leb_le; divmod).
      now rewrite surrogates_combine by lia.
Qed.

Lemma scanstring_escaped (s rest : str) :
  is_text s = true ->
  scanstring (flat_map escape_char s ++ 34%N :: rest) = Some (s, rest).
Proof.
  induction s as [|c s IH]; intros Hs; [reflexivity|].
  cbn [is_text forallb] in Hs. apply andb_true_iff in Hs as [Hc Hs].
  cbn [flat_map]. rewrite <- List.app_assoc, scanstring_escape_char by exact Hc.
  now rewrite IH.
Qed.

(** A dumped string is read back, whatever follows it. *)
Lemma scanstring_encode (s rest : str) :
  is_text s = true ->
  exists body,
    encode_basestring_ascii s = 34%N :: body
    /\ scanstring (body ++ rest) = Some (s, rest).
Proof.
  intros Hs. exists (flat_map escape_char s ++ [34%N]). split; [reflexivity|].
  rewrite <- List.app_assoc. now apply scanstring_escaped.
Qed.

(** ** Integers: [scan_number] reads what [int_repr] writes *)








(** ** Values: the scanner reads what the encoder writes *)











Lemma join_two (sep p q : str) (parts : list str) :
  join sep (p :: q :: parts) = p ++ sep ++ join sep (q :: parts).
Proof. reflexivity. Qed.







(** ** The dumped text is ASCII *)

Lemma is_ascii_app (a b : str) : is_ascii (a ++ b) = is_ascii a && is_ascii b.
Proof. apply forallb_app. Qed.

Lemma escape_u_ascii (n : N) : is_ascii (escape_u n) = true.
Proof.
  unfold escape_u. rewrite is_ascii_app. cbn [is_ascii forallb andb].
  now rewrite !hex_digit_ascii.
Qed.

Lemma escape_char_ascii (c : char) : is_ascii (escape_char c) = true.
Proof.
  unfold escape_char.
  repeat match goal with
         | |- context [if (c =? ?k)%N then _ else _] =>
             destruct (c =? k)%N; [reflexivity|]
         end.
  destruct ((32 <=? c) && (c <=? 126))%N eqn:E.
  - cbn [is_ascii forallb]. rewrite andb_true_r. compare_N.
  - destruct (c <? 65536)%N; [apply escape_u_ascii|].
    cbv zeta. now rewrite is_ascii_app, !escape_u_ascii.
Qed.

Lemma encode_basestring_ascii_ascii (s : str) :
  is_ascii (encode_basestring_ascii s) = true.
Proof.
  unfold encode_basestring_ascii. rewrite !is_ascii_app.
  change (is_ascii [34%N]) with true. rewrite andb_true_r. cbn [andb].
  induction s as [|c s IH]; [reflexivity|].
  cbn [flat_map]. now rewrite is_ascii_app, escape_char_ascii, IH.
Qed.

Lemma uint_str_ascii (u : Decimal.uint) : is_ascii (uint_str u) = true.
Proof. induction u; cbn [uint_str is_ascii forallb]; auto. Qed.

Lemma int_repr_ascii (z : Z) : is_ascii (int_repr z) = true.
Proof.
  unfold int_repr. destruct (Z.to_int z); [apply uint_str_ascii|].
  cbn [is_ascii forallb]. apply uint_str_ascii.
Qed.

Lemma join_ascii (parts : list str) :
  Forall (fun p => is_ascii p = true) parts ->
  is_ascii (join (lit ", ") parts) = true.
Proof.
  induction 1 as [|p parts Hp Hl IH]; [reflexivity|].
  destruct parts as [|q parts]; [exact Hp|].
  now rewrite join_two, !is_ascii_app, Hp, IH.
Qed.








(** ** UTF-8 and base64 on ASCII text *)

Lemma utf8_encode_ascii (s : str) :
  is_ascii s = true -> utf8_encode s = Return s.
Proof.
  induction s as [|c s IH]; [reflexivity|].
  cbn [is_ascii forallb]. intros H. apply andb_true_iff in H as [Hc Hs].
  cbn [utf8_encode]. unfold utf8_encode_char. rewrite Hc. cbn [obind].
  now rewrite (IH Hs).
Qed.

Lemma utf8_decode_ascii (b : bytes) :
  is_ascii b = true -> utf8_decode b = Return b.
Proof.
  induction b as [|c b IH]; [reflexivity|].
  cbn [is_ascii forallb]. intros H. apply andb_true_iff in H as [Hc Hs].
  cbn [utf8_decode]. rewrite Hc, (IH Hs). reflexivity.
Qed.

Lemma b64_char_ascii (k : N) : (b64_char k <? 128)%N = true.
Proof.
  unfold b64_char.
  destruct (nth_in_or_default (N.to_nat k) b64_table 0%N) as [H| ->];
    [|reflexivity].
  assert (A : is_ascii b64_table = true) by reflexivity.
  unfold is_ascii in A. rewrite forallb_forall in A. now apply A.
Qed.

(** Induction on a list, three elements at a time. *)
Lemma list_ind3 {A} (P : list A -> Prop) :
  P [] -> (forall x, P [x]) -> (forall x y, P [x; y]) ->
  (forall x y z l, P l -> P (x :: y :: z :: l)) ->
  forall l, P l.
Proof.
  intros H0 H1 H2 H3.
  assert (H : forall l, P l /\ (forall x, P (x :: l))
                        /\ (forall x y, P (x :: y :: l))).
  { induction l as [|a l (IH0 & IH1 & IH2)]; [now repeat split|].
    split; [apply IH1|]. split; [intros x; apply IH2|].
    intros x y. now apply H3. }
  intros l. apply H.
Qed.

Lemma b64encode_ascii (b : bytes) : is_ascii (b64encode b) = true.
Proof.
  induction b as [|x|x y|x y z b IH] using list_ind3;
    cbn [b64encode is_ascii forallb List.app];
    rewrite ?b64_char_ascii; try reflexivity.
  exact IH.
Qed.

Lemma b64_value_char (k : N) :
  (k < 64)%N ->
  b64_value (b64_char k) = Some k /\ (b64_char k =? 61)%N = false.
Proof.
  revert k. apply (@below_cases _ 64). intros n Hn.
  do 64 (destruct n as [|n]; [split; reflexivity|]). lia.
Qed.

(** The sextets of the encoder and the octets of the decoder, as numbers. *)
Ltac shifts_to_arith :=
  bits_to_arith; rewrite ?N.shiftl_mul_pow2 in *; pow2_numerals.

Lemma sextet2 (x y : N) :
  (y < 256)%N ->
  N.lor (N.shiftl (N.land x 3) 4) (N.shiftr y 4) = (x mod 4 * 16 + y / 16)%N.
Proof.
  intros Hy. rewrite lor_shiftl_low by (shifts_to_arith; divmod).
  shifts_to_arith. reflexivity.
Qed.

Lemma sextet3 (y z : N) :
  (z < 256)%N ->
  N.lor (N.shiftl (N.land y 15) 2) (N.shiftr z 6) = (y mod 16 * 4 + z / 64)%N.
Proof.
  intros Hz. rewrite lor_shiftl_low by (shifts_to_arith; divmod).
  shifts_to_arith. reflexivity.
Qed.

Lemma octet1 (v1 v2 : N) :
  (v2 < 64)%N ->
  N.lor (N.shiftl v1 2) (N.shiftr v2 4) = (v1 * 4 + v2 / 16)%N.
Proof.
  intros H. rewrite lor_shiftl_low by (shifts_to_arith; divmod).
  shifts_to_arith. reflexivity.
Qed.

Lemma octet2 (v2 v3 : N) :
  (v3 < 64)%N ->
  N.lor (N.shiftl (N.land v2 15) 4) (N.shiftr v3 2)
  = (v2 mod 16 * 16 + v3 / 4)%N.
Proof.
  intros H. rewrite lor_shiftl_low by (shifts_to_arith; divmod).
  shifts_to_arith. reflexivity.
Qed.

Lemma octet3 (v3 v4 : N) :
  (v4 < 64)%N ->
  N.lor (N.shiftl (N.land v3 3) 6) v4 = (v3 mod 4 * 64 + v4)%N.
Proof.
  intros H. rewrite lor_shiftl_low by (pow2_numerals; lia).
  shifts_to_arith. reflexivity.
Qed.

Lemma b64decode_step (c1 c2 c3 c4 : N) (s' : bytes) :
  b64decode (c1 :: c2 :: c3 :: c4 :: s') =
  match b64_value c1, b64_value c2 with
  | Some v1, Some v2 =>
      let x := N.lor (N.shiftl v1 2) (N.shiftr v2 4) in
      if (c3 =? 61)%N then
        match s' with
        | [] => if (c4 =? 61)%N then Some [x] else None
        | _ :: _ => None
        end
      else
        match b64_value c3 with
        | Some v3 =>
            let y := N.lor (N.shiftl (N.land v2 15) 4) (N.shiftr v3 2) in
            if (c4 =? 61)%N then
              match s' with
              | [] => Some [x; y]
              | _ :: _ => None
              end
            else
              match b64_value c4 with
              | Some v4 =>
                  let z := N.lor (N.shiftl (N.land v3 3) 6) v4 in
                  match b64decode s' with
                  | Some rest => Some (x :: y :: z :: rest)
                  | None => None
                  end
              | None => None
              end
        | None => None
        end
  | _, _ => None
  end.
Proof. reflexivity. Qed.

(** Decoding what the encoder wrote gives the bytes back. *)
Lemma b64decode_b64encode (b : bytes) :
  is_bytes b = true -> b64decode (b64encode b) = Some b.
Proof.
  induction b as [|x|x y|x y z b IH] using list_ind3;
    cbn [is_bytes forallb]; rewrite ?andb_true_iff, ?N.ltb_lt; intros H.
  - reflexivity.
  - destruct H as [Hx _]. cbn [b64encode]. rewrite b64decode_step.
    assert (B1 : (N.shiftr x 2 < 64)%N) by (shifts_to_arith; divmod).
    assert (B2 : (N.shiftl (N.land x 3) 4 < 64)%N) by (shifts_to_arith; divmod).
    destruct (b64_value_char B1) as [-> _].
    destruct (b64_value_char B2) as [-> _].
    cbv zeta. change (61 =? 61)%N with true. cbv iota.
    rewrite octet1 by exact B2. do 2 f_equal. shifts_to_arith. divmod.
  - destruct H as (Hx & Hy & _). cbn [b64encode]. rewrite b64decode_step.
    rewrite sextet2 by exact Hy.
    assert (B1 : (N.shiftr x 2 < 64)%N) by (shifts_to_arith; divmod).
    assert (B2 : (x mod 4 * 16 + y / 16 < 64)%N) by divmod.
    assert (B3 : (N.shiftl (N.land y 15) 2 < 64)%N) by (shifts_to_arith; divmod).
    destruct (b64_value_char B1) as [-> _].
    destruct (b64_value_char B2) as [-> _].
    destruct (b64_value_char B3) as [-> ->].
    cbv zeta. change (61 =? 61)%N with true. cbv iota.
    rewrite octet1 by exact B2. rewrite octet2 by exact B3.
    f_equal. f_equal; [|f_equal]; shifts_to_arith; divmod.
  - destruct H as (Hx & Hy & Hz & Hb). cbn [b64encode List.app].
    rewrite b64decode_step.
    rewrite sextet2 by exact Hy. rewrite sextet3 by exact Hz.
    assert (B1 : (N.shiftr x 2 < 64)%N) by (shifts_to_arith; divmod).
    assert (B2 : (x mod 4 * 16 + y / 16 < 64)%N) by divmod.
    assert (B3 : (y mod 16 * 4 + z / 64 < 64)%N) by divmod.
    assert (B4 : (N.land z 63 < 64)%N) by (shifts_to_arith; divmod).
    destruct (b64_value_char B1) as [-> _].
    destruct (b64_value_char B2) as [-> _].
    destruct (b64_value_char B3) as [-> ->].
    destruct (b64_value_char B4) as [-> ->].
    cbv zeta. cbv iota.
    rewrite octet1 by exact B2. rewrite octet2 by exact B3.
    rewrite octet3 by exact B4.
    rewrite IH by (unfold is_bytes; exact Hb).
    f_equal. f_equal; [|f_equal; [|f_equal]]; shifts_to_arith; divmod.
Qed.

Lemma is_ascii_is_bytes (s : str) : is_ascii s = true -> is_bytes s = true.
Proof.
  unfold is_ascii, is_bytes. rewrite !forallb_forall. intros H c Hc.
  specialize (H c Hc). compare_N.
Qed.

(** ** The URL carries the configuration *)



(* ================================================================== *)
(** * Part III: further properties of the handlers *)
(* ================================================================== *)

(** ** The gate and the forwarding routes *)

(** The gate gives a token or a 401, nothing else. *)
Lemma verify_token_cases (h : str) :
  (exists tok, verify_token h = Return tok)
  \/ (exists d, verify_token h = HTTPException 401 d).
Proof.
  unfold verify_token. destruct (negb _); [right; eexists; reflexivity|].
  destruct (replace _ _ _); [right | left]; eexists; reflexivity.
Qed.

(** X1: a List or Detail request whose header the gate refuses is answered
    with 401 and nothing is sent to the registry; a request without the
    header is refused as invalid (422), again with nothing sent. *)
Theorem refused_credential_sends_nothing
    (r : inbound) (h : str) (w : registry) :
  forwards r h ->
  (forall tok, verify_token h <> Return tok) ->
  (outbound r w = [] /\ exists d, result r w = HTTPException 401 d)
  /\ (forall q page pageSize,
         app (GET_servers None q page pageSize) w
         = (RequestValidationError (lit "authorization"), []))
  /\ (forall qualified_name,
         app (GET_server None qualified_name) w
         = (RequestValidationError (lit "authorization"), [])).
Proof.
  intros Hr Hno. split; [|split; reflexivity].
  destruct (verify_token_cases h) as [[tok Ht]|[d Hd]];
    [destruct (Hno tok Ht)|].
  unfold outbound, result. rewrite (@app_refused r h w 401%Z d Hr Hd).
  split; [reflexivity | exists d; reflexivity].
Qed.

(** The header [Token abc] at the Detail route. *)
Lemma refused_credential_sends_nothing_witness :
  outbound (GET_server (Some (lit "Token abc")) (lit "acme/tool")) not_found
  = []
  /\ exists d,
       result (GET_server (Some (lit "Token abc")) (lit "acme/tool")) not_found
       = HTTPException 401 d.
Proof.
  apply (@refused_credential_sends_nothing
           (GET_server (Some (lit "Token abc")) (lit "acme/tool"))
           (lit "Token abc") not_found eq_refl).
  intros tok H. discriminate H.
Defined.



(** ** When the builder succeeds *)

(** The encoder fails exactly at the first object it has no case for, with
    the [TypeError] naming its class; otherwise it gives an ASCII text. *)
Lemma json_dumps_outcome (v : pyval) :
  match first_other v with
  | Some cls => json_dumps v = Uncaught (not_serializable cls)
  | None => exists s, json_dumps v = Return s /\ is_ascii s = true
  end.
Proof.
  induction v as [|b|z|s|l IH|d IH|cls] using pyval_nested_ind.
  - exists (lit "null"). now split.
  - destruct b; eexists; split; reflexivity.
  - exists (int_repr z). split; [reflexivity | apply int_repr_ascii].
  - exists (encode_basestring_ascii s).
    split; [reflexivity | apply encode_basestring_ascii_ascii].
  - cbn [first_other json_dumps].
    match goal with
    | |- match ?g l with _ => _ end =>
        match goal with
        | |- context [obind (?f l) _] =>
            assert (H : match g l with
                        | Some cls => f l = Uncaught (not_serializable cls)
                        | None => exists parts,
                            f l = Return parts
                            /\ Forall (fun p => is_ascii p = true) parts
                        end)
        end
    end.
    { induction IH as [|x l Hx _ IHl]; [exists []; now split|].
      destruct (first_other x) as [cls|]; [now rewrite Hx|].
      destruct Hx as (sx & -> & Hsx). cbn [obind].
      match type of IHl with
      | match ?e with _ => _ end => destruct e as [cls|]
      end.
      - now rewrite IHl.
      - destruct IHl as (parts & -> & Hp). exists (sx :: parts).
        split; [reflexivity | now constructor]. }
    match type of H with
    | match ?e with _ => _ end => destruct e as [cls|]
    end.
    + now rewrite H.
    + destruct H as (parts & -> & Hp). cbn [obind]. eexists.
      split; [reflexivity|]. now rewrite !is_ascii_app, join_ascii.
  - cbn [first_other json_dumps].
    match goal with
    | |- match ?g d with _ => _ end =>
        match goal with
        | |- context [obind (?f d) _] =>
            assert (H : match g d with
                        | Some cls => f d = Uncaught (not_serializable cls)
                        | None => exists parts,
                            f d = Return parts
                            /\ Forall (fun p => is_ascii p = true) parts
                        end)
        end
    end.
    { induction IH as [|[k x] d Hx _ IHd]; [exists []; now split|].
      cbn [snd] in Hx.
      destruct (first_other x) as [cls|]; [now rewrite Hx|].
      destruct Hx as (sx & -> & Hsx). cbn [obind].
      match type of IHd with
      | match ?e with _ => _ end => destruct e as [cls|]
      end.
      - now rewrite IHd.
      - destruct IHd as (parts & -> & Hp). eexists.
        split; [reflexivity|]. constructor; [|exact Hp].
        now rewrite !is_ascii_app, encode_basestring_ascii_ascii, Hsx. }
    match type of H with
    | match ?e with _ => _ end => destruct e as [cls|]
    end.
    + now rewrite H.
    + destruct H as (parts & -> & Hp). cbn [obind]. eexists.
      split; [reflexivity|]. now rewrite !is_ascii_app, join_ascii.
  - reflexivity.
Qed.


(** ** The base64 segment *)

Lemma b64_char_alphabet (k : N) :
  (k < 64)%N -> is_b64_char (b64_char k) = true.
Proof.
  revert k. apply (@below_cases _ 64). intros n Hn.
  do 64 (destruct n as [|n]; [reflexivity|]). lia.
Qed.

Lemma b64encode_alphabet (b : bytes) :
  is_bytes b = true -> is_b64_text (b64encode b) = true.
Proof.
  induction b as [|x|x y|x y z b IH] using list_ind3;
    cbn [is_bytes forallb]; rewrite ?andb_true_iff, ?N.ltb_lt; intros H.
  - reflexivity.
  - destruct H as [Hx _]. cbn [b64encode is_b64_text forallb].
    rewrite !b64_char_alphabet by (shifts_to_arith; divmod). reflexivity.
  - destruct H as (Hx & Hy & _). cbn [b64encode is_b64_text forallb].
    rewrite sextet2 by exact Hy.
    rewrite !b64_char_alphabet by (shifts_to_arith; divmod). reflexivity.
  - destruct H as (Hx & Hy & Hz & Hb).
    cbn [b64encode is_b64_text forallb List.app].
    rewrite sextet2 by exact Hy. rewrite sextet3 by exact Hz.
    rewrite !b64_char_alphabet by (shifts_to_arith; divmod).
    cbn [andb]. apply IH. exact Hb.
Qed.

Lemma b64encode_length (b : bytes) :
  List.length (b64encode b) = (4 * ((List.length b + 2) / 3))%nat.
Proof.
  induction b as [|x|x y|x y z b IH] using list_ind3; try reflexivity.
  cbn [b64encode List.app List.length]. rewrite IH.
  replace (S (S (S (List.length b))) + 2)%nat
    with (1 * 3 + (List.length b + 2))%nat by lia.
  rewrite Nat.div_add_l by discriminate. lia.
Qed.

(** X6: [base64.b64encode], as the builder calls it: for every byte string
    the output decodes back to the input, it has four characters for every
    three bytes, rounded up, and it holds only characters of the standard
    alphabet and the padding character. *)
Theorem b64encode_is_decodable (b : bytes) :
  is_bytes b = true ->
  b64decode (b64encode b) = Some b
  /\ List.length (b64encode b) = (4 * ((List.length b + 2) / 3))%nat
  /\ is_b64_text (b64encode b) = true.
Proof.
  intros H. split; [now apply b64decode_b64encode|].
  split; [apply b64encode_length | now apply b64encode_alphabet].
Qed.

(** The four bytes [00 ff 10 80]. *)
Lemma b64encode_is_decodable_witness :
  b64decode (b64encode [0; 255; 16; 128]%N) = Some [0; 255; 16; 128]%N
  /\ List.length (b64encode [0; 255; 16; 128]%N) = 8%nat.
Proof.
  destruct (@b64encode_is_decodable [0; 255; 16; 128]%N eq_refl)
    as (H1 & H2 & _).
  split; [exact H1 | exact H2].
Defined.

(** The text of a dict is not empty. *)
Lemma json_dumps_dict_nonempty (d : dict pyval) (s : str) :
  json_dumps (PyDict d) = Return s -> s <> [].
Proof.
  cbn [json_dumps].
  match goal with
  | |- obind ?o _ = _ -> _ => destruct o; cbn [obind]; try discriminate
  end.
  intros [= <-]. discriminate.
Qed.

(** What the builder returns for a configuration that is dumped as [s]. *)
Lemma create_websocket_url_dumped
    (request : WebSocketUrlRequest) (w : registry) (s : str) :
  json_dumps (PyDict (config request)) = Return s ->
  create_websocket_url request w
  = (Return (mk_ws_response
               (lit "https://server.smithery.ai/" ++ qualifiedName request
                  ++ lit "/ws?config=" ++ b64encode s)), []).
Proof.
  intros Hs. rewrite create_websocket_url_local, Hs. cbn [obind].
  pose proof (json_dumps_outcome (PyDict (config request))) as H.
  destruct (first_other (PyDict (config request))) as [cls|];
    [congruence|].
  destruct H as (s' & Hs' & Ha). assert (s' = s) by congruence. subst s'.
  rewrite (utf8_encode_ascii s Ha). cbn [obind].
  now rewrite (utf8_decode_ascii _ (b64encode_ascii s)).
Qed.

(** X4: whenever the builder returns a URL, the text after [config=] is
    not empty, its length is a multiple of four, and it holds only
    characters of the standard base64 alphabet (which includes [+] and [/])
    and the padding character [=]. *)
Theorem config_segment_is_base64
    (request : WebSocketUrlRequest) (w : registry) (url : str) :
  create_websocket_url request w = (Return (mk_ws_response url), []) ->
  exists seg,
    url = lit "https://server.smithery.ai/" ++ qualifiedName request
            ++ lit "/ws?config=" ++ seg
    /\ is_b64_text seg = true
    /\ (List.length seg mod 4 = 0)%nat
    /\ seg <> [].
Proof.
  intros Hu.
  pose proof (json_dumps_outcome (PyDict (config request))) as H.
  destruct (first_other (PyDict (config request))) as [cls|].
  - rewrite create_websocket_url_local, H in Hu. discriminate Hu.
  - destruct H as (s & Hs & Ha).
    rewrite (create_websocket_url_dumped request w Hs) in Hu.
    injection Hu as <-. exists (b64encode s). split; [reflexivity|].
    split; [apply b64encode_alphabet, is_ascii_is_bytes, Ha|].
    pose proof (b64encode_length s) as Hl.
    pose proof (json_dumps_dict_nonempty _ Hs) as Hn.
    split.
    + change (List.length (b64encode s) mod 4 = 0)%nat.
      rewrite Hl, Nat.mul_comm. apply Nat.Div0.mod_mul.
    + intros E. apply (f_equal (@List.length N)) in E. rewrite Hl in E.
      destruct s as [|c s]; [congruence|].
      cbn [List.length] in E.
      assert (1 <= (S (List.length s) + 2) / 3)%nat
        by (apply Nat.div_le_lower_bound; lia).
      unfold str, char in *. lia.
Qed.

(** The configuration [{"key": "value"}]. *)
Lemma config_segment_is_base64_witness :
  exists seg,
    lit "https://server.smithery.ai/acme/tool/ws?config=eyJrZXkiOiAidmFsdWUifQ=="
    = lit "https://server.smithery.ai/" ++ lit "acme/tool"
        ++ lit "/ws?config=" ++ seg
    /\ is_b64_text seg = true.
Proof.
  destruct (@config_segment_is_base64
              (mk_ws_request (lit "acme/tool")
                             [(lit "key", PyStr (lit "value"))])
              not_found
              (lit "https://server.smithery.ai/acme/tool/ws?config=eyJrZXkiOiAidmFsdWUifQ==")
              eq_refl)
    as (seg & E & B & _).
  exists seg. split; [exact E | exact B].
Defined.

(** ** The URL determines the configuration *)




(** ** When the gate returns the token unchanged *)

Lemma replace_scan_length (old : str) (skip : nat) (s : str) :
  (List.length (replace_scan old [] skip s) <= List.length s)%nat.
Proof.
  revert skip. induction s as [|c s IH]; intros skip; [reflexivity|].
  cbn [replace_scan List.length]. destruct skip as [|k].
  - destruct (startswith (c :: s) old).
    + cbn [List.app]. specialize (IH (pred (List.length old))). lia.
    + cbn [List.length]. specialize (IH 0%nat). lia.
  - specialize (IH k). lia.
Qed.

(** Deleting an occurrence makes the string shorter. *)
Lemma replace_scan_shorter (c : char) (old s : str) :
  occurs (c :: old) s = true ->
  (List.length (replace_scan (c :: old) [] 0 s) < List.length s)%nat.
Proof.
  induction s as [|x s IH]; [discriminate|].
  cbn [occurs replace_scan List.length].
  destruct (startswith (x :: s) (c :: old)).
  - intros _. cbn [List.app].
    match goal with
    | |- context [replace_scan _ _ ?k s] =>
        pose proof (replace_scan_length (c :: old) k s)
    end.
    unfold str, char in *. lia.
  - cbn [orb List.length]. intros H. specialize (IH H).
    unfold str, char in *. lia.
Qed.

(** X7: when the gate accepts the header [Bearer T], the token it returns is
    [T] itself exactly when [Bearer ] does not occur in [T]; a token that
    contains [Bearer ] is never passed on as it was sent. *)
Theorem verify_token_keeps_token_iff (T tok : str) :
  verify_token (lit "Bearer " ++ T) = Return tok ->
  (tok = T <-> occurs (lit "Bearer ") T = false).
Proof.
  rewrite verify_token_Bearer. intros H.
  assert (E : tok = replace T (lit "Bearer ") [])
    by (destruct (replace T (lit "Bearer ") []); congruence).
  subst tok. clear H. rewrite Bearer_cons. split.
  - intros E. destruct (occurs (66%N :: lit "earer ") T) eqn:O; [|reflexivity].
    pose proof (replace_scan_shorter _ _ _ O) as L.
    unfold replace in E. apply (f_equal (@List.length N)) in E.
    unfold str, char in *. lia.
  - apply replace_without.
Qed.

(** The header [Bearer abc]. *)
Lemma verify_token_keeps_token_iff_witness :
  lit "abc" = lit "abc" <-> occurs (lit "Bearer ") (lit "abc") = false.
Proof.
  apply (@verify_token_keeps_token_iff (lit "abc") (lit "abc")). reflexivity.
Defined.
